(** * The conjugation entry schema of [conjugation_data.ts]

    The module declares one interface ([ConjugationItem]), three unions of
    string literals ([WritingSystem], [VerbForm], [WordType]) and one constant,
    the array [conjugationData], whose literal is empty.

    The declarations are embedded twice, and the two readings are related:
    - as Rocq types: records for the object types, [option] for [| null],
      inductive types for the literal unions, [list] for the array;
    - as shapes of runtime values: a JavaScript value [Value] is read at a
      declared type by a decoder that follows the declaration field by field
      and fails where the value does not have the declared shape.

    Strings are [string], the bytes of the text. *)

From stdpp Require Import base option list strings finite gmap.

(** ** Unions of string literals *)

(** [export type WritingSystem = "kanji" | "hiragana"] *)
Inductive WritingSystem : Type :=
  | WS_kanji
  | WS_hiragana.

(** [export type VerbForm = "dictionary" | "masu"] *)
Inductive VerbForm : Type :=
  | VF_dictionary
  | VF_masu.

(** [export type WordType = "verb-ru" | "verb-u" | ... | "expression"] *)
Inductive WordType : Type :=
  | verb_ru
  | verb_u
  | verb_irregular
  | noun
  | adjective_i
  | adjective_na
  | adverb
  | particle
  | expression.

(** The literal a member of a union is written as, which is also the string it
    is at run time. *)
Class Literal (A : Type) := literal : A → string.
Global Hint Mode Literal ! : typeclass_instances.

Global Instance WritingSystem_literal : Literal WritingSystem := λ w,
  match w with
  | WS_kanji => "kanji"
  | WS_hiragana => "hiragana"
  end.

Global Instance VerbForm_literal : Literal VerbForm := λ f,
  match f with
  | VF_dictionary => "dictionary"
  | VF_masu => "masu"
  end.

Global Instance WordType_literal : Literal WordType := λ t,
  match t with
  | verb_ru => "verb-ru"
  | verb_u => "verb-u"
  | verb_irregular => "verb-irregular"
  | noun => "noun"
  | adjective_i => "adjective-i"
  | adjective_na => "adjective-na"
  | adverb => "adverb"
  | particle => "particle"
  | expression => "expression"
  end.

Global Instance WritingSystem_eq_dec : EqDecision WritingSystem.
Proof. solve_decision. Defined.
Global Instance VerbForm_eq_dec : EqDecision VerbForm.
Proof. solve_decision. Defined.
Global Instance WordType_eq_dec : EqDecision WordType.
Proof. solve_decision. Defined.

(** The members of each union, in the order of the declaration. *)
Global Instance WritingSystem_finite : Finite WritingSystem.
Proof.
  refine {| enum := [WS_kanji; WS_hiragana] |}.
  - by apply (bool_decide_unpack _).
  - intros []; set_solver.
Defined.

Global Instance VerbForm_finite : Finite VerbForm.
Proof.
  refine {| enum := [VF_dictionary; VF_masu] |}.
  - by apply (bool_decide_unpack _).
  - intros []; set_solver.
Defined.

Global Instance WordType_finite : Finite WordType.
Proof.
  refine {| enum := [verb_ru; verb_u; verb_irregular; noun; adjective_i;
                     adjective_na; adverb; particle; expression] |}.
  - by apply (bool_decide_unpack _).
  - intros []; set_solver.
Defined.

(** Reading a string at a union type: the member written as that string, if
    there is one. *)
Definition of_literal {A} `{Finite A, !Literal A} (s : string) : option A :=
  snd <$> list_find (λ a, literal a = s) (enum A).

(** ** The interface [ConjugationItem] *)

(** The object type [{ kanji: string; hiragana: string }], which the interface
    writes out six times; object types are structural, so it is one type. *)
Record Written : Type := mkWritten {
  kanji : string;
  hiragana : string;
}.

(** The object type of the property [Word]. *)
Record WordInfo : Type := mkWordInfo {
  dictionary : Written;
  definition : string;
  type : WordType;
}.

(** [export interface ConjugationItem]. The quoted property names
    ["Present Affirmative"] ... ["Te Form"] are spelled with an underscore;
    [| null] on ["Te Form"] is [option]. *)
Record ConjugationItem : Type := mkConjugationItem {
  Word : WordInfo;
  Present_Affirmative : Written;
  Present_Negative : Written;
  Past_Affirmative : Written;
  Past_Negative : Written;
  Te_Form : option Written;
}.

(** ** The constant [conjugationData] *)

(** [export const conjugationData: ConjugationItem[] = [ ]] *)
Definition conjugationData : list ConjugationItem := [].

(** ** Runtime values *)

#[local] Set Warnings "-register-all".

(** The JavaScript values the declared shapes range over: [undefined], [null],
    booleans, strings, objects (finite maps from property names to values) and
    arrays. Numbers and functions occur in no declared shape and are left
    out. A property an object does not have reads as [None]. *)
Inductive Value : Type :=
  | VUndefined
  | VNull
  | VBoolean (b : bool)
  | VString (s : string)
  | VObject (props : gmap string Value)
  | VArray (items : list Value).

(** Reading and writing a value at a declared type. [| null] is read as under
    strict null checking, the only reading under which the declaration's
    [| null] says anything: [null] belongs to a type only where written. *)
Class Shape (A : Type) := {
  to_value : A → Value;
  of_value : Value → option A;
}.
Global Hint Mode Shape ! : typeclass_instances.

(** [string] *)
Global Instance string_shape : Shape string := {|
  to_value := VString;
  of_value v := match v with VString s => Some s | _ => None end;
|}.

(** A union of string literals: a string that is one of the literals. *)
Definition literal_shape {A} `{Finite A, !Literal A} : Shape A := {|
  to_value a := VString (literal a);
  of_value v := match v with VString s => of_literal s | _ => None end;
|}.
Global Instance WritingSystem_shape : Shape WritingSystem := literal_shape.
Global Instance VerbForm_shape : Shape VerbForm := literal_shape.
Global Instance WordType_shape : Shape WordType := literal_shape.

(** A required property [name: A] of an object with properties [o]. *)
Definition prop {A} `{Shape A} (o : gmap string Value) (name : string) : option A :=
  o !! name ≫= of_value.

(** [{ kanji: string; hiragana: string }] *)
Global Instance Written_shape : Shape Written := {|
  to_value w :=
    VObject {[ "kanji" := to_value (kanji w);
               "hiragana" := to_value (hiragana w) ]};
  of_value v :=
    match v with
    | VObject o =>
        k ← prop o "kanji";
        h ← prop o "hiragana";
        Some (mkWritten k h)
    | _ => None
    end;
|}.

(** [A | null] *)
Global Instance nullable_shape {A} `{Shape A} : Shape (option A) := {|
  to_value x := match x with Some a => to_value a | None => VNull end;
  of_value v := match v with VNull => Some None | _ => Some <$> of_value v end;
|}.

(** The object type of [Word]. *)
Global Instance WordInfo_shape : Shape WordInfo := {|
  to_value w :=
    VObject {[ "dictionary" := to_value (dictionary w);
               "definition" := to_value (definition w);
               "type" := to_value (type w) ]};
  of_value v :=
    match v with
    | VObject o =>
        d ← prop o "dictionary";
        g ← prop o "definition";
        t ← prop o "type";
        Some (mkWordInfo d g t)
    | _ => None
    end;
|}.

(** [ConjugationItem] *)
Global Instance ConjugationItem_shape : Shape ConjugationItem := {|
  to_value e :=
    VObject {[ "Word" := to_value (Word e);
               "Present Affirmative" := to_value (Present_Affirmative e);
               "Present Negative" := to_value (Present_Negative e);
               "Past Affirmative" := to_value (Past_Affirmative e);
               "Past Negative" := to_value (Past_Negative e);
               "Te Form" := to_value (Te_Form e) ]};
  of_value v :=
    match v with
    | VObject o =>
        w ← prop o "Word";
        pa ← prop o "Present Affirmative";
        pn ← prop o "Present Negative";
        qa ← prop o "Past Affirmative";
        qn ← prop o "Past Negative";
        te ← prop o "Te Form";
        Some (mkConjugationItem w pa pn qa qn te)
    | _ => None
    end;
|}.

(** [A[]] *)
Global Instance array_shape {A} `{Shape A} : Shape (list A) := {|
  to_value l := VArray (to_value <$> l);
  of_value v := match v with VArray items => mapM of_value items | _ => None end;
|}.

(** The value the module exports under the name [conjugationData]. *)
Definition conjugationData_value : Value := to_value conjugationData.

(** ** The module *)

(** What a top-level declaration of a module is at run time. Interfaces and
    type aliases are erased; a constant holds its value from load on; a
    function is an operation, here taken by what a call does to the entries
    the collection holds. *)
Inductive Declaration : Type :=
  | DInterface (name : string)
  | DTypeAlias (name : string)
  | DConst (name : string) (value : list ConjugationItem)
  | DFunction (name : string)
      (call : list ConjugationItem → list ConjugationItem).

(** The declarations of [conjugation_data.ts], top to bottom. *)
Definition declarations : list Declaration :=
  [ DInterface "ConjugationItem";
    DTypeAlias "WritingSystem";
    DTypeAlias "VerbForm";
    DTypeAlias "WordType";
    DConst "conjugationData" conjugationData ].

(** The operations among a module's declarations. *)
Definition operations (m : list Declaration) :
    list (string * (list ConjugationItem → list ConjugationItem)) :=
  omap (λ d, match d with DFunction n f => Some (n, f) | _ => None end) m.

(** The entries a module's constants hold once it is loaded. *)
Definition loaded (m : list Declaration) : list (string * list ConjugationItem) :=
  omap (λ d, match d with DConst n v => Some (n, v) | _ => None end) m.

(** One step of a program confined to a module's scope: a call of one of its
    operations. *)
Inductive step (m : list Declaration) :
    list ConjugationItem → list ConjugationItem → Prop :=
  | step_call name call s :
      DFunction name call ∈ m → step m s (call s).

(** ** Adding to the collection *)

(** Modelled from the spec: the step that adds an entry to the collection,
    which this module does not define; the specification leaves populating
    the collection to a data-maintenance process outside the module, and has
    the collection ordered by insertion. The step acts on the array the module
    exports, an ordinary array (not declared [readonly]): the new item goes
    after the items the array holds. A value that is not an array takes no
    item. The item is not checked: whether the array is still a
    [ConjugationItem[]] is what reading it at that type tells. *)
Definition add_entry (item : Value) (collection : Value) : option Value :=
  match collection with
  | VArray items => Some (VArray (items ++ [item]))
  | _ => None
  end.

(** ** Sample entries *)

(** The entry of the specification's round-trip scenario. *)
Definition taberu : ConjugationItem := {|
  Word := {| dictionary := mkWritten "食べる" "たべる";
             definition := "to eat";
             type := verb_ru |};
  Present_Affirmative := mkWritten "食べます" "たべます";
  Present_Negative := mkWritten "食べません" "たべません";
  Past_Affirmative := mkWritten "食べました" "たべました";
  Past_Negative := mkWritten "食べませんでした" "たべませんでした";
  Te_Form := Some (mkWritten "食べて" "たべて");
|}.

(** A word with no kanji spelling and no te-form. *)
Definition arigatou : ConjugationItem := {|
  Word := {| dictionary := mkWritten "" "ありがとう";
             definition := "thank you";
             type := expression |};
  Present_Affirmative := mkWritten "" "";
  Present_Negative := mkWritten "" "";
  Past_Affirmative := mkWritten "" "";
  Past_Negative := mkWritten "" "";
  Te_Form := None;
|}.

(** An entry of the declared type whose every string is empty. *)
Definition blank : ConjugationItem := {|
  Word := {| dictionary := mkWritten "" "";
             definition := "";
             type := noun |};
  Present_Affirmative := mkWritten "" "";
  Present_Negative := mkWritten "" "";
  Past_Affirmative := mkWritten "" "";
  Past_Negative := mkWritten "" "";
  Te_Form := Some (mkWritten "" "");
|}.

(** ** Shapes of object properties *)

(** The property [name] of the object [o] is an object whose [kanji] and
    [hiragana] properties are the strings of [w]. *)
Definition holds_pair (o : gmap string Value) (name : string) (w : Written) : Prop :=
  ∃ p, o !! name = Some (VObject p)
       ∧ p !! "kanji" = Some (VString (kanji w))
       ∧ p !! "hiragana" = Some (VString (hiragana w)).

(** The property names of the interface whose type has no [| null]. *)
Definition required_slots : list string :=
  [ "Word"; "Present Affirmative"; "Present Negative";
    "Past Affirmative"; "Past Negative" ].

(** * Properties *)

(** ** Literal unions *)

Section literals.
Context {A : Type} `{Finite A, !Literal A}.

Lemma of_literal_Some (s : string) (a : A) :
  of_literal s = Some a → literal a = s.
Proof.
  unfold of_literal. intros Hs.
  apply fmap_Some in Hs as [[i x] [Hfind ->]].
  apply list_find_Some in Hfind as (_ & Hx & _). exact Hx.
Qed.

Lemma of_literal_is_Some (s : string) :
  is_Some (of_literal (A:=A) s) ↔ s ∈ literal <$> enum A.
Proof.
  split.
  - intros [a Ha]. apply of_literal_Some in Ha as <-.
    apply list_elem_of_fmap_2, elem_of_enum.
  - intros (a & -> & Ha)%list_elem_of_fmap.
    unfold of_literal. apply fmap_is_Some.
    by apply (list_find_elem_of _ _ a).
Qed.

Lemma of_literal_None (s : string) :
  s ∉ literal <$> enum A → of_literal (A:=A) s = None.
Proof.
  rewrite <-of_literal_is_Some. intros Hs.
  by apply eq_None_not_Some.
Qed.
End literals.

Lemma WordType_of_literal (t : WordType) : of_literal (literal t) = Some t.
Proof. by destruct t. Qed.

Lemma WritingSystem_of_literal (w : WritingSystem) : of_literal (literal w) = Some w.
Proof. by destruct w. Qed.

Lemma VerbForm_of_literal (f : VerbForm) : of_literal (literal f) = Some f.
Proof. by destruct f. Qed.

(** ** Reading back what was written *)

Lemma Written_of_to (w : Written) : of_value (to_value w) = Some w.
Proof. by destruct w. Qed.

Lemma nullable_Written_of_to (x : option Written) : of_value (to_value x) = Some x.
Proof. by destruct x as [[]|]. Qed.

Lemma WordInfo_of_to (w : WordInfo) : of_value (to_value w) = Some w.
Proof. by destruct w as [[] ? []]. Qed.

Lemma ConjugationItem_of_to (e : ConjugationItem) : of_value (to_value e) = Some e.
Proof. by destruct e as [[[] ? []] [] [] [] [] [[]|]]. Qed.

Lemma array_of_to (l : list ConjugationItem) : of_value (to_value l) = Some l.
Proof.
  simpl. apply mapM_Some. induction l as [|e l IH]; simpl.
  - constructor.
  - constructor; [apply ConjugationItem_of_to | apply IH].
Qed.

(** ** What a value read at a declared type looks like *)

Lemma prop_Some {A} `{Shape A} (o : gmap string Value) (name : string) (a : A) :
  prop o name = Some a ↔ ∃ v, o !! name = Some v ∧ of_value v = Some a.
Proof. unfold prop. apply bind_Some. Qed.

Lemma string_of_value_Some (v : Value) (s : string) :
  of_value v = Some s → v = VString s.
Proof. destruct v; simpl; congruence. Qed.

Lemma Written_of_value_Some (v : Value) (w : Written) :
  of_value v = Some w →
  ∃ p, v = VObject p
       ∧ p !! "kanji" = Some (VString (kanji w))
       ∧ p !! "hiragana" = Some (VString (hiragana w)).
Proof.
  destruct v as [| | | |p|]; simpl; try discriminate.
  intros Hw. exists p. split; [done|].
  apply bind_Some in Hw as (k & Hk & Hw).
  apply bind_Some in Hw as (h & Hh & Hw).
  apply prop_Some in Hk as (vk & Hk & ->%string_of_value_Some).
  apply prop_Some in Hh as (vh & Hh & ->%string_of_value_Some).
  by simplify_eq.
Qed.

Lemma prop_Written_Some (o : gmap string Value) (name : string) (w : Written) :
  prop o name = Some w → holds_pair o name w.
Proof.
  intros (v & Hv & (p & -> & Hk & Hh)%Written_of_value_Some)%prop_Some.
  by exists p.
Qed.

Lemma prop_nullable_Some (o : gmap string Value) (name : string) (x : option Written) :
  prop o name = Some x →
  (o !! name = Some VNull ∧ x = None) ∨ (∃ w, x = Some w ∧ holds_pair o name w).
Proof.
  intros (v & Hv & Hx)%prop_Some.
  assert ((v = VNull ∧ x = None) ∨ Some <$> of_value v = Some x) as [[-> ->]|Hw].
  { destruct v; simpl in Hx; simplify_eq; auto. }
  - by left.
  - right. apply fmap_Some in Hw as (w & Hw & ->).
    exists w. split; [done|]. apply prop_Written_Some, prop_Some. eauto.
Qed.

Lemma literal_of_value_Some {A} `{Finite A, !Literal A} (v : Value) (a : A) :
  of_value (Shape:=literal_shape) v = Some a → v = VString (literal a).
Proof.
  destruct v; simpl; try discriminate.
  by intros <-%of_literal_Some.
Qed.

Lemma WordInfo_of_value_Some (v : Value) (w : WordInfo) :
  of_value v = Some w →
  ∃ p, v = VObject p
       ∧ holds_pair p "dictionary" (dictionary w)
       ∧ p !! "definition" = Some (VString (definition w))
       ∧ p !! "type" = Some (VString (literal (type w))).
Proof.
  destruct v as [| | | |p|]; simpl; try discriminate.
  intros Hw. exists p. split; [done|].
  apply bind_Some in Hw as (d & Hd & Hw).
  apply bind_Some in Hw as (g & Hg & Hw).
  apply bind_Some in Hw as (t & Ht & Hw).
  apply prop_Written_Some in Hd.
  apply prop_Some in Hg as (vg & Hg & ->%string_of_value_Some).
  apply prop_Some in Ht as (vt & Ht & ->%literal_of_value_Some).
  by simplify_eq.
Qed.

Lemma ConjugationItem_of_value_Some (v : Value) (e : ConjugationItem) :
  of_value v = Some e →
  ∃ o, v = VObject o
       ∧ prop o "Word" = Some (Word e)
       ∧ prop o "Present Affirmative" = Some (Present_Affirmative e)
       ∧ prop o "Present Negative" = Some (Present_Negative e)
       ∧ prop o "Past Affirmative" = Some (Past_Affirmative e)
       ∧ prop o "Past Negative" = Some (Past_Negative e)
       ∧ prop o "Te Form" = Some (Te_Form e).
Proof.
  destruct v as [| | | |o|]; simpl; try discriminate.
  intros He. exists o. split; [done|].
  apply bind_Some in He as (w & Hw & He).
  apply bind_Some in He as (pa & Hpa & He).
  apply bind_Some in He as (pn & Hpn & He).
  apply bind_Some in He as (qa & Hqa & He).
  apply bind_Some in He as (qn & Hqn & He).
  apply bind_Some in He as (te & Hte & He).
  by simplify_eq.
Qed.

(** A required property is an object, so it is not [null]. *)
Lemma required_slot_object (o : gmap string Value) (e : ConjugationItem) (name : string) :
  of_value (VObject o) = Some e → name ∈ required_slots →
  ∃ p, o !! name = Some (VObject p).
Proof.
  intros (o' & [= <-] & Hw & Hpa & Hpn & Hqa & Hqn & _)%ConjugationItem_of_value_Some.
  unfold required_slots. rewrite !elem_of_cons, elem_of_nil.
  intros [->|[->|[->|[->|[->|[]]]]]].
  - apply prop_Some in Hw as (v & Hv & (p & -> & _)%WordInfo_of_value_Some). eauto.
  - apply prop_Written_Some in Hpa as (p & ? & _). eauto.
  - apply prop_Written_Some in Hpn as (p & ? & _). eauto.
  - apply prop_Written_Some in Hqa as (p & ? & _). eauto.
  - apply prop_Written_Some in Hqn as (p & ? & _). eauto.
Qed.

Lemma literal_of_value_is_Some {A} `{Finite A, !Literal A} (v : Value) :
  is_Some (of_value (A:=A) (Shape:=literal_shape) v)
  ↔ ∃ s, v = VString s ∧ s ∈ literal <$> enum A.
Proof.
  split.
  - intros [a Ha]. exists (literal a). split.
    + by apply literal_of_value_Some.
    + apply list_elem_of_fmap_2, elem_of_enum.
  - intros (s & -> & Hs). simpl. by apply of_literal_is_Some.
Qed.

(** ** The collection *)

(** C1. The exported collection [conjugationData] is empty: it is the empty
    list, its length is exactly 0, reading it at any index yields no entry,
    and the value the module exports is the empty array. *)
Theorem conjugationData_empty :
  conjugationData = []
  ∧ length conjugationData = 0
  ∧ (∀ i : nat, conjugationData !! i = None)
  ∧ conjugationData_value = VArray [].
Proof.
  split_and!; [done..| |done].
  intros i. apply lookup_nil.
Qed.

(** A value read at [ConjugationItem[]] is an array with one item per entry,
    each read at [ConjugationItem]. *)
Lemma array_of_value_Some (v : Value) (l : list ConjugationItem) :
  of_value v = Some l →
  ∃ items, v = VArray items ∧ Forall2 (λ item e, of_value item = Some e) items l.
Proof.
  destruct v as [| | | | |items]; simpl; try discriminate.
  intros Hl%mapM_Some. by exists items.
Qed.

(** The claim C3, that the dictionary hiragana spelling of every entry of the
    collection is non-empty, fails for collections of the declared type: the
    one-entry array holding [blank] is a [ConjugationItem[]], and the
    hiragana spelling of its entry is the empty string. *)
Lemma hiragana_nonempty_counterexample :
  of_value (to_value [blank]) = Some [blank]
  ∧ [blank] !! 0 = Some blank
  ∧ hiragana (dictionary (Word blank)) = "".
Proof. split_and!; [apply array_of_to|done..]. Qed.

(** C3, amended. For every entry of a collection of the declared type
    [ConjugationItem[]], the dictionary hiragana spelling is present and is a
    string: in a value read at that type, each item has a [Word] whose
    [dictionary] has a string as its [hiragana], the one the entry read
    carries. The string may be empty: the type admits a collection with an
    entry whose hiragana spelling is [""]. *)
Theorem collection_hiragana_is_string :
  (∀ (v : Value) (l : list ConjugationItem),
     of_value v = Some l →
     ∃ items, v = VArray items
              ∧ length items = length l
              ∧ ∀ (i : nat) (e : ConjugationItem),
                  l !! i = Some e →
                  ∃ o w d, items !! i = Some (VObject o)
                           ∧ o !! "Word" = Some (VObject w)
                           ∧ w !! "dictionary" = Some (VObject d)
                           ∧ d !! "hiragana" =
                               Some (VString (hiragana (dictionary (Word e)))))
  ∧ (∃ (v : Value) (l : list ConjugationItem) (e : ConjugationItem),
       of_value v = Some l ∧ e ∈ l ∧ hiragana (dictionary (Word e)) = "").
Proof.
  split.
  - intros v l (items & -> & Hitems)%array_of_value_Some.
    exists items. split_and!; [done|by eapply Forall2_length|].
    intros i e Hi.
    destruct (Forall2_lookup_r _ _ _ _ _ Hitems Hi) as (item & Hitem & He).
    apply ConjugationItem_of_value_Some in He as (o & -> & Hw & _).
    apply prop_Some in Hw as (vw & Hvw & Hw).
    apply WordInfo_of_value_Some in Hw as (w & -> & (d & Hd & _ & Hh) & _).
    by exists o, w, d.
  - exists (to_value [blank]), [blank], blank.
    split_and!; [apply array_of_to|apply list_elem_of_here|done].
Qed.

Lemma collection_hiragana_is_string_witness :
  ∃ items, to_value [taberu; blank] = VArray items
           ∧ length items = 2
           ∧ ∀ (i : nat) (e : ConjugationItem),
               [taberu; blank] !! i = Some e →
               ∃ o w d, items !! i = Some (VObject o)
                        ∧ o !! "Word" = Some (VObject w)
                        ∧ w !! "dictionary" = Some (VObject d)
                        ∧ d !! "hiragana" =
                            Some (VString (hiragana (dictionary (Word e)))).
Proof.
  apply (proj1 collection_hiragana_is_string (to_value [taberu; blank]) [taberu; blank]).
  apply array_of_to.
Defined.

(** ** The enumerations *)

(** C5. [WordType] is closed with exactly nine variants, written as nine
    distinct literals; the [type] of every entry is one of them; a string is
    read at [WordType] exactly when it is one of the nine literals; a value
    read at [ConjugationItem] has one of the nine literals as its [Word.type],
    and an object whose [Word.type] is any other string is not a
    [ConjugationItem]. *)
Theorem WordType_closed :
  card WordType = 9
  ∧ enum WordType = [ verb_ru; verb_u; verb_irregular; noun; adjective_i;
                     adjective_na; adverb; particle; expression ]
  ∧ literal <$> enum WordType =
      [ "verb-ru"; "verb-u"; "verb-irregular"; "noun"; "adjective-i";
        "adjective-na"; "adverb"; "particle"; "expression" ]
  ∧ NoDup (literal <$> enum WordType)
  ∧ (∀ e : ConjugationItem, type (Word e) ∈ enum WordType)
  ∧ (∀ s : string,
       is_Some (of_literal (A:=WordType) s) ↔ s ∈ literal <$> enum WordType)
  ∧ (∀ (v : Value) (e : ConjugationItem),
       of_value v = Some e →
       ∃ o w, v = VObject o
              ∧ o !! "Word" = Some (VObject w)
              ∧ w !! "type" = Some (VString (literal (type (Word e))))
              ∧ literal (type (Word e)) ∈ literal <$> enum WordType)
  ∧ (∀ (o w : gmap string Value) (s : string),
       o !! "Word" = Some (VObject w) →
       w !! "type" = Some (VString s) →
       s ∉ literal <$> enum WordType →
       of_value (A:=ConjugationItem) (VObject o) = None).
Proof.
  assert (∀ (v : Value) (e : ConjugationItem),
            of_value v = Some e →
            ∃ o w, v = VObject o
                   ∧ o !! "Word" = Some (VObject w)
                   ∧ w !! "type" = Some (VString (literal (type (Word e))))) as Hread.
  { intros v e (o & -> & Hw & _)%ConjugationItem_of_value_Some.
    apply prop_Some in Hw as (vw & Hvw & (w & -> & _ & _ & Ht)%WordInfo_of_value_Some).
    by exists o, w. }
  split_and!; try done.
  - by apply (bool_decide_unpack _).
  - intros e. apply elem_of_enum.
  - intros s. apply of_literal_is_Some.
  - intros v e (o & w & -> & Ho & Hw)%Hread. exists o, w.
    split_and!; [done..|]. apply list_elem_of_fmap_2, elem_of_enum.
  - intros o w s Ho Hw Hs. apply eq_None_not_Some.
    intros [e (o' & w' & [= <-] & Ho' & Hw')%Hread]. simplify_eq.
    apply Hs, list_elem_of_fmap_2, elem_of_enum.
Qed.

(** C6. [WritingSystem] is exactly {kanji, hiragana} and [VerbForm] is exactly
    {dictionary, masu}: each has two members, and a runtime value belongs to
    the type exactly when it is one of its two literal strings. *)
Theorem WritingSystem_VerbForm_closed :
  (card WritingSystem = 2
   ∧ enum WritingSystem = [WS_kanji; WS_hiragana]
   ∧ literal <$> enum WritingSystem = ["kanji"; "hiragana"]
   ∧ (∀ w : WritingSystem, w = WS_kanji ∨ w = WS_hiragana)
   ∧ (∀ v : Value, is_Some (of_value (A:=WritingSystem) v)
                   ↔ v = VString "kanji" ∨ v = VString "hiragana"))
  ∧ (card VerbForm = 2
     ∧ enum VerbForm = [VF_dictionary; VF_masu]
     ∧ literal <$> enum VerbForm = ["dictionary"; "masu"]
     ∧ (∀ f : VerbForm, f = VF_dictionary ∨ f = VF_masu)
     ∧ (∀ v : Value, is_Some (of_value (A:=VerbForm) v)
                     ↔ v = VString "dictionary" ∨ v = VString "masu")).
Proof.
  split; split_and!; try done.
  - intros []; auto.
  - intros v. etrans; [apply (literal_of_value_is_Some (A:=WritingSystem))|]. simpl.
    setoid_rewrite elem_of_cons. setoid_rewrite elem_of_cons.
    setoid_rewrite elem_of_nil. split.
    + intros (s & -> & [->|[->|[]]]); auto.
    + intros [->| ->]; eexists; (split; [done|]); auto.
  - intros []; auto.
  - intros v. etrans; [apply (literal_of_value_is_Some (A:=VerbForm))|]. simpl.
    setoid_rewrite elem_of_cons. setoid_rewrite elem_of_cons.
    setoid_rewrite elem_of_nil. split.
    + intros (s & -> & [->|[->|[]]]); auto.
    + intros [->| ->]; eexists; (split; [done|]); auto.
Qed.

(** ** The conjugation slots *)

(** C2. The Te-Form of an entry is either absent or a complete pair, and
    absence is not the empty pair. At run time: a value read at
    [ConjugationItem] has as its ["Te Form"] either [null] or an object with
    both a [kanji] and a [hiragana] string, while each other slot is an
    object, never [null]; an object whose ["Te Form"] is a pair with one of
    the two strings missing is not a [ConjugationItem], nor is one with
    [null] in another slot; and [null] in ["Te Form"] is admitted. *)
Theorem Te_Form_absent_or_complete :
  (∀ e : ConjugationItem,
     Te_Form e = None ∨ ∃ k h, Te_Form e = Some (mkWritten k h))
  ∧ (None ≠ Some (mkWritten "" "")
     ∧ to_value (None : option Written) ≠ to_value (Some (mkWritten "" "")))
  ∧ (∀ (v : Value) (e : ConjugationItem),
       of_value v = Some e →
       ∃ o, v = VObject o
            ∧ ((o !! "Te Form" = Some VNull ∧ Te_Form e = None)
               ∨ (∃ w, Te_Form e = Some w ∧ holds_pair o "Te Form" w))
            ∧ (∀ name, name ∈ required_slots → ∃ p, o !! name = Some (VObject p)))
  ∧ (∀ o p : gmap string Value,
       o !! "Te Form" = Some (VObject p) →
       (∀ s, p !! "kanji" ≠ Some (VString s))
       ∨ (∀ s, p !! "hiragana" ≠ Some (VString s)) →
       of_value (A:=ConjugationItem) (VObject o) = None)
  ∧ (∀ (o : gmap string Value) (name : string),
       name ∈ required_slots →
       o !! name = Some VNull →
       of_value (A:=ConjugationItem) (VObject o) = None)
  ∧ (∃ (o : gmap string Value) (e : ConjugationItem),
       o !! "Te Form" = Some VNull ∧ of_value (VObject o) = Some e).
Proof.
  assert (∀ (v : Value) (e : ConjugationItem),
            of_value v = Some e →
            ∃ o, v = VObject o
                 ∧ ((o !! "Te Form" = Some VNull ∧ Te_Form e = None)
                    ∨ (∃ w, Te_Form e = Some w ∧ holds_pair o "Te Form" w))) as Hte.
  { intros v e (o & -> & _ & _ & _ & _ & _ & Hte)%ConjugationItem_of_value_Some.
    exists o. split; [done|]. by apply prop_nullable_Some. }
  split_and!.
  - intros e. destruct (Te_Form e) as [[k h]|]; eauto.
  - done.
  - done.
  - intros v e He. destruct (Hte v e He) as (o & -> & Ho).
    exists o. split_and!; [done..|].
    intros name Hname. by apply (required_slot_object o e).
  - intros o p Ho Hp. apply eq_None_not_Some. intros [e He].
    destruct (Hte _ e He) as (o' & [= <-] & [[Hnull _]|(w & _ & p' & Hp' & Hk & Hh)]).
    + congruence.
    + simplify_eq. destruct Hp as [Hp|Hp]; by eapply Hp.
  - intros o name Hname Ho. apply eq_None_not_Some. intros [e He].
    destruct (required_slot_object o e name He Hname) as [p Hp]. congruence.
  - exists {[ "Word" := to_value (Word arigatou);
              "Present Affirmative" := to_value (Present_Affirmative arigatou);
              "Present Negative" := to_value (Present_Negative arigatou);
              "Past Affirmative" := to_value (Past_Affirmative arigatou);
              "Past Negative" := to_value (Past_Negative arigatou);
              "Te Form" := VNull ]}, arigatou.
    done.
Qed.

(** C4. Each of the four required slots of an entry is present and complete:
    in a value read at [ConjugationItem], and so in the value of every entry,
    ["Present Affirmative"], ["Present Negative"], ["Past Affirmative"] and
    ["Past Negative"] are objects with both a [kanji] and a [hiragana]
    string; the strings may be empty. *)
Theorem required_slots_complete :
  (∀ (v : Value) (e : ConjugationItem),
     of_value v = Some e →
     ∃ o, v = VObject o
          ∧ holds_pair o "Present Affirmative" (Present_Affirmative e)
          ∧ holds_pair o "Present Negative" (Present_Negative e)
          ∧ holds_pair o "Past Affirmative" (Past_Affirmative e)
          ∧ holds_pair o "Past Negative" (Past_Negative e))
  ∧ (∀ e : ConjugationItem, of_value (to_value e) = Some e)
  ∧ (∃ e : ConjugationItem,
       of_value (to_value e) = Some e
       ∧ Present_Affirmative e = mkWritten "" ""
       ∧ Present_Negative e = mkWritten "" ""
       ∧ Past_Affirmative e = mkWritten "" ""
       ∧ Past_Negative e = mkWritten "" "").
Proof.
  split_and!.
  - intros v e (o & -> & _ & Hpa & Hpn & Hqa & Hqn & _)%ConjugationItem_of_value_Some.
    exists o. split_and!; [done|by apply prop_Written_Some..].
  - apply ConjugationItem_of_to.
  - by exists blank.
Qed.

(** ** Entries the type admits *)

(** C9. A word with no kanji spelling is representable: there is an entry of
    the declared type, with a non-empty hiragana spelling, whose dictionary
    kanji spelling is the empty string, and its runtime value is read back
    at [ConjugationItem] unchanged. *)
Theorem empty_kanji_admitted :
  ∃ e : ConjugationItem,
    kanji (dictionary (Word e)) = ""
    ∧ hiragana (dictionary (Word e)) ≠ ""
    ∧ of_value (to_value e) = Some e.
Proof. by exists arigatou. Qed.

(** C10. The declared type does not enforce a non-empty hiragana spelling:
    some value of type [ConjugationItem] has the empty string there, so the
    property does not hold of every [ConjugationItem], and some array of
    type [ConjugationItem[]] has an entry without it. *)
Theorem hiragana_not_enforced_by_type :
  (∃ e : ConjugationItem,
     hiragana (dictionary (Word e)) = "" ∧ of_value (to_value e) = Some e)
  ∧ ¬ (∀ e : ConjugationItem, hiragana (dictionary (Word e)) ≠ "")
  ∧ (∃ l : list ConjugationItem,
       ¬ Forall (λ e, hiragana (dictionary (Word e)) ≠ "") l
       ∧ of_value (to_value l) = Some l).
Proof.
  split_and!.
  - by exists blank.
  - intros Hall. by apply (Hall blank).
  - exists [blank]. split; [|apply array_of_to].
    intros Hall. apply Forall_cons_1 in Hall as [Hblank _]. by apply Hblank.
Qed.

(** ** Adding an entry and reading back *)

(** A collection that was given an item which is not a [ConjugationItem] is
    no longer read at [ConjugationItem[]]. *)
Lemma add_entry_unreadable (item c : Value) :
  of_value (A:=ConjugationItem) item = None →
  add_entry item conjugationData_value = Some c →
  of_value (A:=list ConjugationItem) c = None.
Proof.
  intros Hitem [= <-]. apply eq_None_not_Some.
  intros [l (items & [= <-] & Hitems)%array_of_value_Some].
  apply Forall2_cons_inv_l in Hitems as (e & l' & He & _). congruence.
Qed.

(** C7. Round trip: adding a well-formed entry to the collection, which is
    empty, and reading the collection again yields exactly one entry, which
    matches the one added field for field. Here the entry added is a runtime
    value [item] that has the shape of the interface and denotes [e], with a
    non-empty hiragana spelling and a Te-Form pair. The exported array then
    holds [item] and nothing else; read at [ConjugationItem[]] it is [[e]];
    the properties of [item] are those of [e], slot by slot, the Te-Form
    being a pair; and the collection read back keeps a non-empty hiragana
    spelling in every entry. *)
Theorem add_then_read_back (item : Value) (e : ConjugationItem) :
  of_value item = Some e →
  hiragana (dictionary (Word e)) ≠ "" →
  is_Some (Te_Form e) →
  ∃ c o w,
    add_entry item conjugationData_value = Some c
    ∧ c = VArray [item]
    ∧ of_value c = Some [e]
    ∧ Forall (λ e', hiragana (dictionary (Word e')) ≠ "") [e]
    ∧ item = VObject o
    ∧ o !! "Word" = Some (VObject w)
    ∧ holds_pair w "dictionary" (dictionary (Word e))
    ∧ w !! "definition" = Some (VString (definition (Word e)))
    ∧ w !! "type" = Some (VString (literal (type (Word e))))
    ∧ holds_pair o "Present Affirmative" (Present_Affirmative e)
    ∧ holds_pair o "Present Negative" (Present_Negative e)
    ∧ holds_pair o "Past Affirmative" (Past_Affirmative e)
    ∧ holds_pair o "Past Negative" (Past_Negative e)
    ∧ ∃ te, Te_Form e = Some te ∧ holds_pair o "Te Form" te.
Proof.
  intros He Hhira [te Hte].
  destruct (ConjugationItem_of_value_Some _ _ He)
    as (o & -> & Hw & Hpa & Hpn & Hqa & Hqn & Hto).
  apply prop_Some in Hw as (vw & Hvw & Hw).
  apply WordInfo_of_value_Some in Hw as (w & -> & Hd & Hg & Ht).
  exists (VArray [VObject o]), o, w.
  split_and!; try done.
  - simpl. simpl in He. by rewrite He.
  - by apply Forall_singleton.
  - by apply prop_Written_Some.
  - by apply prop_Written_Some.
  - by apply prop_Written_Some.
  - by apply prop_Written_Some.
  - exists te. split; [done|].
    apply prop_nullable_Some in Hto as [[_ Hnone]|(te' & Hsome & Hpair)];
      congruence.
Qed.

Lemma add_then_read_back_witness :
  ∃ c o w,
    add_entry (to_value taberu) conjugationData_value = Some c
    ∧ c = VArray [to_value taberu]
    ∧ of_value c = Some [taberu]
    ∧ Forall (λ e', hiragana (dictionary (Word e')) ≠ "") [taberu]
    ∧ to_value taberu = VObject o
    ∧ o !! "Word" = Some (VObject w)
    ∧ holds_pair w "dictionary" (dictionary (Word taberu))
    ∧ w !! "definition" = Some (VString (definition (Word taberu)))
    ∧ w !! "type" = Some (VString (literal (type (Word taberu))))
    ∧ holds_pair o "Present Affirmative" (Present_Affirmative taberu)
    ∧ holds_pair o "Present Negative" (Present_Negative taberu)
    ∧ holds_pair o "Past Affirmative" (Past_Affirmative taberu)
    ∧ holds_pair o "Past Negative" (Past_Negative taberu)
    ∧ ∃ te, Te_Form taberu = Some te ∧ holds_pair o "Te Form" te.
Proof.
  apply (add_then_read_back (to_value taberu) taberu).
  - reflexivity.
  - simpl. discriminate.
  - simpl. eexists. reflexivity.
Defined.

(** ** The module's scope *)

(** The step relation does tell modules apart: a module that also declared a
    function emptying the collection would have a step. *)
Example step_of_a_module_with_a_function :
  step (DFunction "clear" (λ _, []) :: declarations) [taberu] [].
Proof. apply (step_call _ "clear" (λ _, [])). apply list_elem_of_here. Qed.

(** C8. The module defines no operation and no mutation path: none of its
    declarations is a function, the one value it holds is [conjugationData],
    no step within its scope is possible from any state, and every state
    reachable from the loaded collection is the loaded collection. *)
Theorem no_operations_no_mutation :
  operations declarations = []
  ∧ loaded declarations = [("conjugationData", conjugationData)]
  ∧ (∀ s s', ¬ step declarations s s')
  ∧ (∀ s, rtc (step declarations) conjugationData s → s = conjugationData).
Proof.
  assert (∀ s s', ¬ step declarations s s') as Hstuck.
  { intros s s' Hstep. inversion Hstep as [name call s0 Hin]. clear -Hin.
    unfold declarations in Hin.
    repeat (apply elem_of_cons in Hin as [Hin|Hin]; [discriminate|]).
    by apply elem_of_nil in Hin. }
  split_and!; [done..|].
  intros s [->|(s' & Hstep & _)]%rtc_inv; [done|].
  by apply Hstuck in Hstep.
Qed.

Lemma no_operations_no_mutation_witness :
  rtc (step declarations) conjugationData [] ∧ [] = conjugationData.
Proof.
  split; [apply rtc_refl|].
  apply (proj2 (proj2 (proj2 no_operations_no_mutation)) []), rtc_refl.
Defined.

(** ** Instances at the sample entries *)

Lemma Te_Form_absent_or_complete_witness :
  (∃ o, to_value taberu = VObject o
        ∧ ((o !! "Te Form" = Some VNull ∧ Te_Form taberu = None)
           ∨ (∃ w, Te_Form taberu = Some w ∧ holds_pair o "Te Form" w))
        ∧ (∀ name, name ∈ required_slots → ∃ p, o !! name = Some (VObject p)))
  ∧ (∃ o, to_value arigatou = VObject o
          ∧ ((o !! "Te Form" = Some VNull ∧ Te_Form arigatou = None)
             ∨ (∃ w, Te_Form arigatou = Some w ∧ holds_pair o "Te Form" w))
          ∧ (∀ name, name ∈ required_slots → ∃ p, o !! name = Some (VObject p))).
Proof.
  split.
  - apply (proj1 (proj2 (proj2 Te_Form_absent_or_complete)) (to_value taberu) taberu).
    reflexivity.
  - apply (proj1 (proj2 (proj2 Te_Form_absent_or_complete)) (to_value arigatou) arigatou).
    reflexivity.
Defined.

Lemma required_slots_complete_witness :
  ∃ o, to_value blank = VObject o
       ∧ holds_pair o "Present Affirmative" (mkWritten "" "")
       ∧ holds_pair o "Present Negative" (mkWritten "" "")
       ∧ holds_pair o "Past Affirmative" (mkWritten "" "")
       ∧ holds_pair o "Past Negative" (mkWritten "" "").
Proof.
  apply (proj1 required_slots_complete (to_value blank) blank).
  reflexivity.
Defined.

Lemma WordType_closed_witness :
  ∃ o w, to_value taberu = VObject o
         ∧ o !! "Word" = Some (VObject w)
         ∧ w !! "type" = Some (VString "verb-ru")
         ∧ "verb-ru" ∈ literal <$> enum WordType.
Proof.
  apply (proj1 (proj2 (proj2 (proj2 (proj2 (proj2 (proj2 WordType_closed))))))
           (to_value taberu) taberu).
  reflexivity.
Defined.

(** ** How the declarations fit together *)

(** X1. [WritingSystem] names exactly the properties of a written pair. In
    every value of type [{ kanji: string; hiragana: string }], the property
    named by a member of [WritingSystem] is a string, the spelling in that
    writing system; and a property name is a string in every such value only
    if it is a literal of [WritingSystem]. *)
Theorem WritingSystem_names_pair_properties :
  (∀ (w : WritingSystem) (v : Value) (p : Written),
     of_value v = Some p →
     ∃ o, v = VObject o
          ∧ o !! literal w =
              Some (VString match w with
                            | WS_kanji => kanji p
                            | WS_hiragana => hiragana p
                            end))
  ∧ (∀ name : string,
       (∀ (v : Value) (p : Written),
          of_value v = Some p → ∃ o s, v = VObject o ∧ o !! name = Some (VString s))
       ↔ is_Some (of_literal (A:=WritingSystem) name)).
Proof.
  assert (∀ (w : WritingSystem) (v : Value) (p : Written),
            of_value v = Some p →
            ∃ o, v = VObject o
                 ∧ o !! literal w =
                     Some (VString match w with
                                   | WS_kanji => kanji p
                                   | WS_hiragana => hiragana p
                                   end)) as Hindex.
  { intros w v p (o & -> & Hk & Hh)%Written_of_value_Some.
    exists o. split; [done|]. by destruct w. }
  split; [exact Hindex|].
  intros name. split.
  - intros Hall.
    destruct (Hall (to_value (mkWritten "" "")) (mkWritten "" "") (Written_of_to _))
      as (o & s & [= <-] & Hname).
    apply lookup_insert_Some in Hname as [[<- _]|[_ Hname]]; [by eexists|].
    apply lookup_singleton_Some in Hname as [<- _]. by eexists.
  - intros [w <-%of_literal_Some] v p Hp.
    destruct (Hindex w v p Hp) as (o & -> & Ho). eauto.
Qed.

Lemma WritingSystem_names_pair_properties_witness :
  ∃ o, to_value (Present_Affirmative taberu) = VObject o
       ∧ o !! "hiragana" = Some (VString "たべます").
Proof.
  apply (proj1 WritingSystem_names_pair_properties WS_hiragana
           (to_value (Present_Affirmative taberu)) (Present_Affirmative taberu)).
  reflexivity.
Defined.

(** X2. The three unions of literals share no member: no runtime value is of
    two of the types [WritingSystem], [VerbForm] and [WordType], so a tag
    tells which union it comes from. *)
Theorem literal_unions_disjoint (v : Value) :
  ¬ (is_Some (of_value (A:=WritingSystem) v) ∧ is_Some (of_value (A:=VerbForm) v))
  ∧ ¬ (is_Some (of_value (A:=WritingSystem) v) ∧ is_Some (of_value (A:=WordType) v))
  ∧ ¬ (is_Some (of_value (A:=VerbForm) v) ∧ is_Some (of_value (A:=WordType) v)).
Proof.
  split_and!.
  - intros [[a Ha] [b Hb]].
    apply (literal_of_value_Some (A:=WritingSystem)) in Ha.
    apply (literal_of_value_Some (A:=VerbForm)) in Hb.
    subst v. by destruct a, b.
  - intros [[a Ha] [b Hb]].
    apply (literal_of_value_Some (A:=WritingSystem)) in Ha.
    apply (literal_of_value_Some (A:=WordType)) in Hb.
    subst v. by destruct a, b.
  - intros [[a Ha] [b Hb]].
    apply (literal_of_value_Some (A:=VerbForm)) in Ha.
    apply (literal_of_value_Some (A:=WordType)) in Hb.
    subst v. by destruct a, b.
Qed.
